(** * Reciprocal cycles (Project Euler 26): the search of [main.py]

    A shallow embedding of [main] from [src/main.py] together with the
    number theory that its comments appeal to.  Python integers are
    unbounded, so they are modelled by [Z]; Python's [%] and [//] with a
    positive divisor are [Z.modulo] and [Z.div].  The three [while] loops
    are modelled with fuel: each evaluation of a loop condition consumes
    one unit, and [None] means that the fuel ran out. *)

From Stdlib Require Import ZArith List Lia Bool.
From Stdlib Require String.
Import ListNotations.

Local Open Scope Z_scope.

(** ** Python values and results *)

(** The values a caller can pass for [n].  Only the dynamic type matters
    to [main]: [type(n) == int] holds for a [PyInt] alone (for
    [type(...) ==], [bool] is a type of its own). *)
Inductive pyval : Type :=
| PyInt (z : Z)
| PyBool (b : bool)
| PyFloat (mantissa exponent : Z)
| PyStr (s : String.string)
| PyNone.

(** [type(n) == int], giving the integer when it holds. *)
Definition type_is_int (n : pyval) : option Z :=
  match n with
  | PyInt z => Some z
  | _ => None
  end.

(** What a call of [main] does when it stops: it returns the pair
    [(d_best, d_cycle)], where [d_best] may still be Python's [None], or
    the [assert] on its first line fails. *)
Inductive outcome : Type :=
| Return (d_best : option Z) (d_cycle : Z)
| AssertionError.

(** ** The option monad for fuel *)

Definition bind {A B : Type} (m : option A) (f : A -> option B) : option B :=
  match m with
  | Some a => f a
  | None => None
  end.

Notation "x <- m ;; k" := (bind m (fun x => k))
  (at level 61, m at next level, right associativity).
Notation "' p <- m ;; k" := (bind m (fun p => k))
  (at level 61, p pattern, m at next level, right associativity).

(** ** The loops of [main] *)

(** [while d % q == 0: d //= q; count += 1], for [q = 2] (lines 78-80)
    and [q = 5] (lines 82-84).  Returns the final [(d, count)]. *)
Fixpoint strip_loop (fuel : nat) (q d count : Z) : option (Z * Z) :=
  match fuel with
  | O => None
  | S fuel' =>
      if d mod q =? 0
      then strip_loop fuel' q (d / q) (count + 1)
      else Some (d, count)
  end.

(** [while p != 1: p = (10*p) % d; w += 1] (lines 101-103).  Returns the
    final [w]. *)
Fixpoint order_loop (fuel : nat) (d p w : Z) : option Z :=
  match fuel with
  | O => None
  | S fuel' =>
      if negb (p =? 1)
      then order_loop fuel' d ((10 * p) mod d) (w + 1)
      else Some w
  end.

(** The accumulator [(d_best, d_cycle)] of the search. *)
Definition acc : Type := (option Z * Z)%type.

(** One iteration of the [for] loop (lines 76-113). *)
Definition body (fuel : nat) (st : acc) (d_orig : Z) : option acc :=
  let '(d_best, d_cycle) := st in
  '(d, count_2s) <- strip_loop fuel 2 d_orig 0 ;;
  '(d, count_5s) <- strip_loop fuel 5 d 0 ;;
  if negb (d =? 1) then
    if (count_2s =? 0) && (count_5s =? 0) then
      w <- order_loop fuel d (10 mod d) 1 ;;
      if w >? d_cycle then Some (Some d, w) else Some (d_best, d_cycle)
    else Some (d_best, d_cycle)
  else Some (d_best, d_cycle).

(** [range(lo, hi)]. *)
Definition range (lo hi : Z) : list Z :=
  map (fun i => lo + Z.of_nat i) (seq 0 (Z.to_nat (hi - lo))).

(** [for d_orig in ds: ...] from a given accumulator. *)
Fixpoint for_loop (fuel : nat) (ds : list Z) (st : acc) : option acc :=
  match ds with
  | [] => Some st
  | d_orig :: ds' => st' <- body fuel st d_orig ;; for_loop fuel ds' st'
  end.

(** [main] (lines 52-114).  The [and] of the assertion short-circuits, so
    [n > 2] is only evaluated on an [int]. *)
Definition main (fuel : nat) (n : pyval) : option outcome :=
  match type_is_int n with
  | Some z =>
      if z >? 2 then
        '(d_best, d_cycle) <- for_loop fuel (range 2 z) (None, 0) ;;
        Some (Return d_best d_cycle)
      else Some AssertionError
  | None => Some AssertionError
  end.

(** ** Decimal expansions and multiplicative order *)

(** Long division of 1 by [d]: the remainder carried into the digit at
    position [k] after the decimal point (positions start at 0), and that
    digit. *)
Fixpoint remainder (d : Z) (k : nat) : Z :=
  match k with
  | O => 1 mod d
  | S k' => (10 * remainder d k') mod d
  end.

Definition digit (d : Z) (k : nat) : Z := (10 * remainder d k) / d.

(** The [m] digits from position [a] on, read as a decimal numeral. *)
Fixpoint block (d : Z) (a m : nat) : Z :=
  match m with
  | O => 0
  | S m' => 10 * block d a m' + digit d (a + m')
  end.

(** The expansion of [1/d] terminates: from some position on all digits
    are 0. *)
Definition terminating (d : Z) : Prop :=
  exists s : nat, forall k : nat, (s <= k)%nat -> digit d k = 0.

(** From some position on, the digits of [1/d] repeat in blocks of [w]. *)
Definition repeats (d : Z) (w : nat) : Prop :=
  exists s : nat, forall k : nat, (s <= k)%nat -> digit d (k + w) = digit d k.

(** [1/d] has a recurring cycle of length [w]; a terminating expansion
    has no cycle, which is length 0. *)
Definition cycle_length (d : Z) (w : nat) : Prop :=
  (terminating d /\ w = 0%nat) \/
  (~ terminating d /\ (0 < w)%nat /\ repeats d w /\
   forall w' : nat, (0 < w' < w)%nat -> ~ repeats d w').

(** [w] is the multiplicative order of 10 modulo [d]. *)
Definition is_order (d w : Z) : Prop :=
  0 < w /\ 10 ^ w mod d = 1 /\ forall k, 0 < k < w -> 10 ^ k mod d <> 1.

(** ** The search as a fold *)

Definition coprime10 (d : Z) : bool :=
  negb (d mod 2 =? 0) && negb (d mod 5 =? 0).

(** The value the inner loop computes for [d], with the fuel that
    always suffices (0 if it did not). *)
Definition order (d : Z) : Z :=
  match order_loop (Z.to_nat d) d (10 mod d) 1 with
  | Some w => w
  | None => 0
  end.

(** What one iteration of the [for] loop does to the accumulator. *)
Definition step (st : acc) (d_orig : Z) : acc :=
  if coprime10 d_orig && (order d_orig >? snd st)
  then (Some d_orig, order d_orig)
  else st.

(** The part of a denominator that is left when its factors 2 and 5 are
    removed, as the two stripping loops compute it. *)
Definition reduced (d_orig : Z) : Z :=
  match strip_loop (Z.to_nat d_orig) 2 d_orig 0 with
  | Some (d, _) =>
      match strip_loop (Z.to_nat d_orig) 5 d 0 with
      | Some (d', _) => d'
      | None => 0
      end
  | None => 0
  end.

(** The length of the recurring cycle of [1/d] that the comments of
    [main] derive: none when only factors 2 and 5 are present, otherwise
    the order of 10 modulo the reduced denominator. *)
Definition cycle_of (d : Z) : Z :=
  if reduced d =? 1 then 0 else order (reduced d).

(** The whole [for] loop of [main(n)]. *)
Definition search (n : Z) : acc := fold_left step (range 2 n) (None, 0).

(** The accumulator holds the first denominator coprime to 10 below [n]
    of greatest order, or is still the initial one when there is none. *)
Definition best_below (n : Z) (st : acc) : Prop :=
  match fst st with
  | None => snd st = 0 /\ forall d, 2 <= d < n -> coprime10 d = false
  | Some b =>
      2 <= b < n /\ coprime10 b = true /\ snd st = order b /\
      forall d, 2 <= d < n -> coprime10 d = true ->
                order d <= order b /\ (order d = order b -> b <= d)
  end.

(** What the contract asks of a result [(d, w)] for the bound [n]: [d] is
    a denominator in [[2, n)], [w] is the length of the cycle of [1/d], no
    denominator in the range has a longer cycle, and none below [d] has
    one as long. *)
Definition longest_cycle (n d : Z) (w : nat) : Prop :=
  2 <= d < n /\ cycle_length d w /\
  forall (d' : Z) (w' : nat),
    2 <= d' < n -> cycle_length d' w' ->
    (w' <= w)%nat /\ (w' = w -> d <= d').

(** * Proofs *)

Example main_11 : main 11 (PyInt 11) = Some (Return (Some 7) 6).
Proof. reflexivity. Qed.

Example main_1000 : main 1000 (PyInt 1000) = Some (Return (Some 983) 982).
Proof. vm_compute. reflexivity. Qed.

Example digits_7 :
  map (digit 7) (seq 0 12) = [1; 4; 2; 8; 5; 7; 1; 4; 2; 8; 5; 7].
Proof. reflexivity. Qed.

Example digits_6 : map (digit 6) (seq 0 6) = [1; 6; 6; 6; 6; 6].
Proof. reflexivity. Qed.

Example digits_8 : map (digit 8) (seq 0 6) = [1; 2; 5; 0; 0; 0].
Proof. reflexivity. Qed.

Example reduced_values :
  map reduced [2; 3; 6; 7; 8; 20; 35; 42] = [1; 3; 3; 7; 1; 1; 7; 21].
Proof. reflexivity. Qed.

Example cycle_of_values :
  map cycle_of [2; 3; 4; 5; 6; 7; 8; 9; 10] = [0; 1; 0; 0; 1; 6; 0; 1; 0].
Proof. reflexivity. Qed.

(** ** More fuel never changes a result *)

Lemma strip_loop_mono (fuel fuel' : nat) (q d c : Z) (r : Z * Z) :
  strip_loop fuel q d c = Some r -> (fuel <= fuel')%nat ->
  strip_loop fuel' q d c = Some r.
Proof.
  revert fuel' d c.
  induction fuel as [|fuel IH]; intros fuel' d c H Hle; [discriminate|].
  destruct fuel' as [|fuel']; [lia|].
  simpl in *. destruct (d mod q =? 0); [|assumption].
  apply IH; [assumption|lia].
Qed.

Lemma order_loop_mono (fuel fuel' : nat) (d p w r : Z) :
  order_loop fuel d p w = Some r -> (fuel <= fuel')%nat ->
  order_loop fuel' d p w = Some r.
Proof.
  revert fuel' p w.
  induction fuel as [|fuel IH]; intros fuel' p w H Hle; [discriminate|].
  destruct fuel' as [|fuel']; [lia|].
  simpl in *. destruct (negb (p =? 1)); [|assumption].
  apply IH; [assumption|lia].
Qed.

Lemma body_mono (fuel fuel' : nat) (st st' : acc) (d_orig : Z) :
  body fuel st d_orig = Some st' -> (fuel <= fuel')%nat ->
  body fuel' st d_orig = Some st'.
Proof.
  unfold body. destruct st as [d_best d_cycle]. intros H Hle.
  destruct (strip_loop fuel 2 d_orig 0) as [[d c2]|] eqn:E2; [|discriminate].
  rewrite (strip_loop_mono _ _ _ _ _ _ E2 Hle). simpl in *.
  destruct (strip_loop fuel 5 d 0) as [[d' c5]|] eqn:E5; [|discriminate].
  rewrite (strip_loop_mono _ _ _ _ _ _ E5 Hle). simpl in *.
  destruct (negb (d' =? 1)); [|assumption].
  destruct ((c2 =? 0) && (c5 =? 0)); [|assumption].
  destruct (order_loop fuel d' (10 mod d') 1) as [w|] eqn:Ew; [|discriminate].
  rewrite (order_loop_mono _ _ _ _ _ _ Ew Hle). assumption.
Qed.

Lemma for_loop_mono (fuel fuel' : nat) (ds : list Z) (st st' : acc) :
  for_loop fuel ds st = Some st' -> (fuel <= fuel')%nat ->
  for_loop fuel' ds st = Some st'.
Proof.
  revert st. induction ds as [|d ds IH]; intros st H Hle; [assumption|].
  simpl in *. destruct (body fuel st d) as [st1|] eqn:Eb; [|discriminate].
  rewrite (body_mono _ _ _ _ _ Eb Hle). simpl in *. now apply IH.
Qed.

Lemma main_mono (fuel fuel' : nat) (n : pyval) (r : outcome) :
  main fuel n = Some r -> (fuel <= fuel')%nat -> main fuel' n = Some r.
Proof.
  unfold main. intros H Hle.
  destruct (type_is_int n) as [z|]; [|assumption].
  destruct (z >? 2); [|assumption].
  destruct (for_loop fuel (range 2 z) (None, 0)) as [st|] eqn:E; [|discriminate].
  rewrite (for_loop_mono _ _ _ _ _ E Hle). assumption.
Qed.

(** A call has at most one outcome, whatever the fuel. *)
Lemma main_deterministic (f1 f2 : nat) (n : pyval) (r1 r2 : outcome) :
  main f1 n = Some r1 -> main f2 n = Some r2 -> r1 = r2.
Proof.
  intros H1 H2.
  apply main_mono with (fuel' := Nat.max f1 f2) in H1; [|lia].
  apply main_mono with (fuel' := Nat.max f1 f2) in H2; [|lia].
  congruence.
Qed.

(** ** The stripping loops *)

Lemma strip_loop_spec (q : Z) (fuel : nat) (d c : Z) :
  2 <= q -> 1 <= d <= Z.of_nat fuel ->
  exists d' c',
    strip_loop fuel q d c = Some (d', c') /\
    1 <= d' <= d /\ c <= c' /\ d = d' * q ^ (c' - c) /\ d' mod q <> 0.
Proof.
  intros Hq. revert d c.
  induction fuel as [|fuel IH]; intros d c Hd; [lia|].
  simpl. destruct (Z.eqb_spec (d mod q) 0) as [E|E].
  - assert (Hdq : d = q * (d / q)) by (apply Z_div_exact_full_2; lia).
    assert (1 <= d / q <= Z.of_nat fuel) by nia.
    destruct (IH (d / q) (c + 1)) as (d' & c' & Hs & Hb & Hc & Hp & Hm);
      [assumption|].
    exists d', c'. repeat split; try assumption; try lia; try nia.
    replace (c' - c) with (Z.succ (c' - (c + 1))) by lia.
    rewrite Z.pow_succ_r by lia. rewrite Hdq at 1. rewrite Hp at 1. ring.
  - exists d, c. rewrite Z.sub_diag, Z.pow_0_r.
    repeat split; try lia; assumption.
Qed.

(** An unchanged counter means that nothing was divided out. *)
Lemma strip_loop_unchanged (q : Z) (fuel : nat) (d c d' : Z) :
  strip_loop fuel q d c = Some (d', c) -> 2 <= q -> 1 <= d <= Z.of_nat fuel ->
  d' = d /\ d mod q <> 0.
Proof.
  intros H Hq Hd.
  destruct (strip_loop_spec q fuel d c Hq Hd)
    as (d1 & c1 & Hs & Hb & Hc & Hp & Hm).
  rewrite H in Hs. injection Hs as <- <-.
  rewrite Z.sub_diag, Z.pow_0_r, Z.mul_1_r in Hp. subst d'. split; auto.
Qed.

Lemma strip_loop_indivisible (q : Z) (fuel : nat) (d c : Z) :
  d mod q <> 0 -> strip_loop (S fuel) q d c = Some (d, c).
Proof.
  intros H. simpl. destruct (Z.eqb_spec (d mod q) 0); [contradiction|reflexivity].
Qed.

(** A counter that moved means that the factor was present. *)
Lemma strip_loop_changed (q : Z) (fuel : nat) (d c d' c' : Z) :
  strip_loop fuel q d c = Some (d', c') -> d mod q = 0 -> c' <> c.
Proof.
  destruct fuel as [|fuel]; [discriminate|].
  simpl. intros H E. rewrite E in H. simpl in H.
  assert (G : forall f x k r k', strip_loop f q x k = Some (r, k') -> k <= k').
  { clear. induction f as [|f IH]; intros x k r k' H; [discriminate|].
    simpl in H. destruct (x mod q =? 0).
    - apply IH in H. lia.
    - injection H as _ <-. lia. }
  apply G in H. lia.
Qed.

(** ** Arithmetic modulo a denominator coprime to 10 *)

Lemma coprime10_true (d : Z) :
  coprime10 d = true <-> d mod 2 <> 0 /\ d mod 5 <> 0.
Proof.
  unfold coprime10. now rewrite andb_true_iff, !negb_true_iff, !Z.eqb_neq.
Qed.

Lemma coprime10_false (d : Z) :
  coprime10 d = false <-> d mod 2 = 0 \/ d mod 5 = 0.
Proof.
  unfold coprime10. now rewrite andb_false_iff, !negb_false_iff, !Z.eqb_eq.
Qed.

Lemma coprime10_gcd (d : Z) : coprime10 d = true <-> Z.gcd d 10 = 1.
Proof.
  rewrite coprime10_true.
  split.
  - intros [H2 H5].
    pose proof (Z.gcd_divide_l d 10) as Hd.
    pose proof (Z.gcd_divide_r d 10) as Ht.
    pose proof (Z.gcd_nonneg d 10) as Hn.
    set (g := Z.gcd d 10) in *.
    assert (Hg : 0 < g <= 10).
    { split; [|apply Z.divide_pos_le; [lia|assumption]].
      destruct (Z.eq_dec g 0) as [E|E]; [|lia].
      rewrite E in Ht. destruct Ht as [k Hk]. lia. }
    assert (E2 : ~ (2 | g)).
    { intros D. apply H2, Z.mod0_divide. now apply Z.divide_trans with g. }
    assert (E5 : ~ (5 | g)).
    { intros D. apply H5, Z.mod0_divide. now apply Z.divide_trans with g. }
    destruct Ht as [k Hk].
    assert (Hc : g = 1 \/ g = 2 \/ g = 5 \/ g = 10).
    { assert (Hk' : 0 < k <= 10) by nia.
      assert (Hv : k = 1 \/ k = 2 \/ k = 3 \/ k = 4 \/ k = 5 \/ k = 6 \/
                   k = 7 \/ k = 8 \/ k = 9 \/ k = 10) by lia.
      repeat (destruct Hv as [Hv|Hv]; [subst k; lia|]). subst k. lia. }
    destruct Hc as [E|[E|[E|E]]]; [assumption| | |].
    + exfalso. apply E2. exists 1. lia.
    + exfalso. apply E5. exists 1. lia.
    + exfalso. apply E2. exists 5. lia.
  - intros Hg. split; intros E.
    + assert (D : (2 | Z.gcd d 10)).
      { apply Z.gcd_greatest; [apply Z.mod_divide; [lia|assumption]|].
        exists 5. reflexivity. }
      rewrite Hg in D. destruct D as [k Hk]. lia.
    + assert (D : (5 | Z.gcd d 10)).
      { apply Z.gcd_greatest; [apply Z.mod_divide; [lia|assumption]|].
        exists 2. reflexivity. }
      rewrite Hg in D. destruct D as [k Hk]. lia.
Qed.

(** Powers of 10 cancel in divisibility by a number coprime to 10. *)
Lemma pow10_cancel (d x : Z) (k : nat) :
  Z.gcd d 10 = 1 -> (d | 10 ^ Z.of_nat k * x) -> (d | x).
Proof.
  intros Hg. induction k as [|k IH]; intros H.
  - now rewrite Z.pow_0_r, Z.mul_1_l in H.
  - apply IH. rewrite Nat2Z.inj_succ, Z.pow_succ_r, <- Z.mul_assoc in H by lia.
    exact (Z.gauss _ _ _ H Hg).
Qed.

Lemma mod_eq_divide (d a b : Z) : d <> 0 -> a mod d = b mod d -> (d | b - a).
Proof.
  intros Hd H. exists (b / d - a / d).
  pose proof (Z.div_mod a d Hd). pose proof (Z.div_mod b d Hd). lia.
Qed.

Lemma divide_mod_eq (d a b : Z) : (d | b - a) -> a mod d = b mod d.
Proof.
  intros [k Hk]. replace b with (a + k * d) by lia.
  symmetry. apply Z_mod_plus_full.
Qed.

Lemma mod_1_iff (d x : Z) : 2 <= d -> x mod d = 1 <-> (d | x - 1).
Proof.
  intros Hd. split.
  - intros H. apply mod_eq_divide; [lia|]. rewrite H. apply Z.mod_small. lia.
  - intros H. apply divide_mod_eq in H. rewrite <- H. apply Z.mod_small. lia.
Qed.

Lemma pow10_mod_nonzero (d : Z) (k : nat) :
  2 <= d -> Z.gcd d 10 = 1 -> 10 ^ Z.of_nat k mod d <> 0.
Proof.
  intros Hd Hg E. apply Z.mod_divide in E; [|lia].
  rewrite <- (Z.mul_1_r (10 ^ _)) in E. apply pow10_cancel in E; [|assumption].
  apply Z.divide_1_r_nonneg in E; lia.
Qed.

(** Two powers of 10 that agree modulo [d] give a power that is 1. *)
Lemma pow10_collision (d : Z) (i j : nat) :
  2 <= d -> Z.gcd d 10 = 1 -> (i < j)%nat ->
  10 ^ Z.of_nat i mod d = 10 ^ Z.of_nat j mod d ->
  10 ^ Z.of_nat (j - i) mod d = 1.
Proof.
  intros Hd Hg Hij H. apply mod_1_iff; [assumption|].
  apply mod_eq_divide in H; [|lia].
  apply pow10_cancel with (k := i); [assumption|].
  replace (10 ^ Z.of_nat i * (10 ^ Z.of_nat (j - i) - 1))
    with (10 ^ Z.of_nat j - 10 ^ Z.of_nat i); [assumption|].
  replace (Z.of_nat j) with (Z.of_nat i + Z.of_nat (j - i)) by lia.
  rewrite Z.pow_add_r by lia. ring.
Qed.

(** ** The order loop *)

(** The loop searches upwards: started at exponent [w] with
    [p = 10^w mod d], it stops at the first exponent whose power is 1, and
    it runs out of fuel only if no exponent within reach has that. *)
Lemma order_loop_search (d : Z) (fuel : nat) (w : Z) :
  0 <= w ->
  match order_loop fuel d (10 ^ w mod d) w with
  | Some r =>
      w <= r < w + Z.of_nat fuel /\ 10 ^ r mod d = 1 /\
      forall k, w <= k < r -> 10 ^ k mod d <> 1
  | None => forall k, w <= k < w + Z.of_nat fuel -> 10 ^ k mod d <> 1
  end.
Proof.
  revert w. induction fuel as [|fuel IH]; intros w Hw; [simpl; lia|].
  cbn [order_loop].
  destruct (Z.eqb_spec (10 ^ w mod d) 1) as [E|E]; cbn [negb].
  - repeat split; try lia; assumption.
  - assert (Hs : (10 * (10 ^ w mod d)) mod d = 10 ^ (w + 1) mod d).
    { rewrite Zmult_mod_idemp_r, Z.pow_add_r, Z.pow_1_r, Z.mul_comm by lia.
      reflexivity. }
    rewrite Hs. specialize (IH (w + 1) ltac:(lia)).
    destruct (order_loop fuel d (10 ^ (w + 1) mod d) (w + 1)) as [r|].
    + destruct IH as (Hr & H1 & Hmin). repeat split; [lia|lia|assumption|].
      intros k Hk. destruct (Z.eq_dec k w) as [->|Hne]; [assumption|].
      apply Hmin. lia.
    + intros k Hk. destruct (Z.eq_dec k w) as [->|Hne]; [assumption|].
      apply IH. lia.
Qed.

(** Pigeonhole: among the first [d] powers of 10 modulo a [d] coprime to
    10, none of which is 0, two agree, so some power below [d] is 1. *)
Lemma order_exists (d : Z) :
  2 <= d -> Z.gcd d 10 = 1 -> exists w, 0 < w < d /\ 10 ^ w mod d = 1.
Proof.
  intros Hd Hg.
  pose proof (order_loop_search d (Z.to_nat (d - 1)) 1 ltac:(lia)) as Hs.
  destruct (order_loop (Z.to_nat (d - 1)) d (10 ^ 1 mod d) 1) as [r|].
  { exists r. destruct Hs as (Hr & H1 & _). split; [lia|assumption]. }
  exfalso.
  set (f := fun i : nat => 10 ^ Z.of_nat i mod d).
  assert (Hinj : NoDup (map f (seq 0 (Z.to_nat d)))).
  { apply NoDup_map_NoDup_ForallPairs; [|apply seq_NoDup].
    intros i j Hi Hj Hf. apply in_seq in Hi, Hj. unfold f in Hf.
    destruct (Nat.lt_trichotomy i j) as [L|[L|L]]; [|assumption|].
    - exfalso. apply (Hs (Z.of_nat (j - i))); [lia|].
      now apply pow10_collision.
    - exfalso. apply (Hs (Z.of_nat (i - j))); [lia|].
      now apply pow10_collision. }
  assert (Hincl : incl (map f (seq 0 (Z.to_nat d)))
                       (map Z.of_nat (seq 1 (Z.to_nat (d - 1))))).
  { intros x Hx. apply in_map_iff in Hx. destruct Hx as (i & <- & Hi).
    apply in_map_iff. exists (Z.to_nat (f i)).
    pose proof (Z.mod_pos_bound (10 ^ Z.of_nat i) d ltac:(lia)) as Hb.
    pose proof (pow10_mod_nonzero d i Hd Hg) as Hnz.
    fold (f i) in Hb, Hnz. split; [lia|]. apply in_seq. lia. }
  apply NoDup_incl_length in Hincl; [|assumption].
  rewrite !length_map, !length_seq in Hincl. lia.
Qed.

(** For [d >= 2] coprime to 10 the loop of [main] stops within [d]
    evaluations of its condition, at the multiplicative order. *)
Lemma order_loop_order (d : Z) (fuel : nat) :
  2 <= d -> Z.gcd d 10 = 1 -> (Z.to_nat d <= fuel)%nat ->
  exists w, order_loop fuel d (10 mod d) 1 = Some w /\
            is_order d w /\ w <= d - 1.
Proof.
  intros Hd Hg Hf.
  destruct (order_exists d Hd Hg) as (W & HW & HW1).
  pose proof (order_loop_search d (Z.to_nat d) 1 ltac:(lia)) as Hs.
  rewrite Z.pow_1_r in Hs.
  destruct (order_loop (Z.to_nat d) d (10 mod d) 1) as [r|] eqn:E.
  - exists r. destruct Hs as (Hr & H1 & Hmin).
    split; [exact (order_loop_mono _ _ _ _ _ _ E Hf)|].
    assert (r <= W).
    { destruct (Z_le_gt_dec r W); [assumption|]. exfalso.
      apply (Hmin W); [lia|assumption]. }
    split; [|lia]. split; [lia|]. split; [assumption|].
    intros k Hk. apply Hmin. lia.
  - exfalso. apply (Hs W); [lia|assumption].
Qed.

Lemma is_order_unique (d w w' : Z) : is_order d w -> is_order d w' -> w = w'.
Proof.
  intros (H0 & H1 & Hm) (H0' & H1' & Hm').
  destruct (Z.lt_trichotomy w w') as [L|[L|L]]; [|assumption|].
  - exfalso. apply (Hm' w); [lia|assumption].
  - exfalso. apply (Hm w'); [lia|assumption].
Qed.

Lemma order_is_order (d : Z) :
  2 <= d -> Z.gcd d 10 = 1 -> is_order d (order d) /\ 1 <= order d <= d - 1.
Proof.
  intros Hd Hg.
  destruct (order_loop_order d (Z.to_nat d) Hd Hg (Nat.le_refl _))
    as (w & E & Ho & Hb).
  unfold order. rewrite E. split; [assumption|]. destruct Ho. lia.
Qed.

(** ** One iteration, and the loop as a fold *)

Lemma body_step (fuel : nat) (st : acc) (d_orig : Z) :
  2 <= d_orig <= Z.of_nat fuel ->
  body fuel st d_orig = Some (step st d_orig).
Proof.
  intros Hd. unfold body, step. destruct st as [d_best d_cycle].
  destruct (strip_loop_spec 2 fuel d_orig 0 ltac:(lia) ltac:(lia))
    as (d1 & c2 & E2 & Hb1 & Hc2 & Hp2 & Hm2).
  rewrite E2. cbn [bind].
  destruct (strip_loop_spec 5 fuel d1 0 ltac:(lia) ltac:(lia))
    as (d & c5 & E5 & Hb & Hc5 & Hp5 & Hm5).
  rewrite E5. cbn [bind snd].
  destruct (coprime10 d_orig) eqn:Ec.
  - pose proof Ec as Hg. apply coprime10_gcd in Hg.
    apply coprime10_true in Ec. destruct Ec as [N2 N5].
    destruct fuel as [|fuel]; [lia|].
    rewrite strip_loop_indivisible in E2 by assumption.
    injection E2 as <- <-.
    rewrite strip_loop_indivisible in E5 by assumption.
    injection E5 as <- <-.
    destruct (Z.eqb_spec d_orig 1) as [?|_]; [lia|].
    cbn [negb andb Z.eqb].
    destruct (order_loop_order d_orig (S fuel) ltac:(lia) Hg ltac:(lia))
      as (w & Ew & _).
    assert (Ho : order d_orig = w).
    { unfold order.
      destruct (order_loop_order d_orig (Z.to_nat d_orig)
                  ltac:(lia) Hg (Nat.le_refl _)) as (w' & Ew' & _).
      rewrite Ew'.
      apply order_loop_mono with (fuel' := S fuel) in Ew'; [|lia].
      congruence. }
    rewrite Ew, Ho. cbn [bind]. destruct (w >? d_cycle); reflexivity.
  - cbn [andb].
    assert (Hc : c2 <> 0 \/ c5 <> 0).
    { apply coprime10_false in Ec.
      destruct (Z.eq_dec c2 0) as [->|]; [|now left]. right.
      apply strip_loop_unchanged in E2; [|lia|lia].
      destruct E2 as [-> N2]. destruct Ec as [Ec|Ec]; [contradiction|].
      exact (strip_loop_changed _ _ _ _ _ _ E5 Ec). }
    destruct (negb (d =? 1)); [|reflexivity].
    destruct (Z.eqb_spec c2 0), (Z.eqb_spec c5 0); try reflexivity. lia.
Qed.

Lemma for_loop_fold (fuel : nat) (ds : list Z) (st : acc) :
  Forall (fun d => 2 <= d <= Z.of_nat fuel) ds ->
  for_loop fuel ds st = Some (fold_left step ds st).
Proof.
  intros H. revert st. induction H as [|d ds Hd _ IH]; intros st; [reflexivity|].
  simpl. rewrite body_step by assumption. apply IH.
Qed.

Lemma in_range (lo hi x : Z) : In x (range lo hi) <-> lo <= x < hi.
Proof.
  unfold range. rewrite in_map_iff. split.
  - intros (i & <- & Hi). apply in_seq in Hi. lia.
  - intros H. exists (Z.to_nat (x - lo)). split; [lia|]. apply in_seq. lia.
Qed.

Lemma range_snoc (lo hi : Z) : lo <= hi -> range lo (hi + 1) = range lo hi ++ [hi].
Proof.
  intros H. unfold range.
  replace (Z.to_nat (hi + 1 - lo)) with (S (Z.to_nat (hi - lo))) by lia.
  rewrite seq_S, map_app. simpl. do 3 f_equal. lia.
Qed.

(** With fuel [n], [main(n)] returns what the fold computes. *)
Lemma main_search (fuel : nat) (n : Z) :
  2 < n -> (Z.to_nat n <= fuel)%nat ->
  main fuel (PyInt n) = Some (Return (fst (search n)) (snd (search n))).
Proof.
  intros Hn Hf. unfold main, search. cbn [type_is_int].
  destruct (Z.gtb_spec n 2) as [_|?]; [|lia].
  rewrite for_loop_fold.
  - cbn [bind]. now destruct (fold_left step (range 2 n) (None, 0)).
  - apply Forall_forall. intros d Hd. apply in_range in Hd. lia.
Qed.

Lemma search_succ (n : Z) : 2 <= n -> search (n + 1) = step (search n) n.
Proof.
  intros H. unfold search. now rewrite range_snoc, fold_left_app by assumption.
Qed.

Lemma search_best_below (n : Z) : 2 <= n -> best_below n (search n).
Proof.
  intros Hn. replace n with (2 + Z.of_nat (Z.to_nat (n - 2))) by lia.
  induction (Z.to_nat (n - 2)) as [|k IH].
  - cbn. split; [reflexivity|]. intros d Hd. lia.
  - rewrite Nat2Z.inj_succ.
    replace (2 + Z.succ (Z.of_nat k)) with (2 + Z.of_nat k + 1) by lia.
    set (m := 2 + Z.of_nat k) in *. assert (Hm : 2 <= m) by lia.
    rewrite search_succ by assumption. clearbody m.
    destruct (search m) as [b c]. unfold best_below, step in *. cbn [fst snd] in *.
    destruct (coprime10 m) eqn:Ec; cbn [andb].
    + pose proof (order_is_order m Hm (proj1 (coprime10_gcd m) Ec)) as [_ Hom].
      destruct (Z.gtb_spec (order m) c) as [G|G]; cbn [fst snd].
      * split; [lia|]. split; [assumption|]. split; [reflexivity|].
        intros d Hd Hcd. destruct (Z.eq_dec d m) as [->|Hne]; [lia|].
        destruct b as [b|].
        -- destruct IH as (_ & _ & -> & Hmax).
           destruct (Hmax d ltac:(lia) Hcd). lia.
        -- destruct IH as [_ Hnone]. rewrite Hnone in Hcd by lia. discriminate.
      * destruct b as [b|].
        -- destruct IH as (Hb & Hcb & -> & Hmax).
           split; [lia|]. split; [assumption|]. split; [reflexivity|].
           intros d Hd Hcd. destruct (Z.eq_dec d m) as [->|Hne]; [lia|].
           apply Hmax; [lia|assumption].
        -- destruct IH as [-> _]. lia.
    + destruct b as [b|].
      * destruct IH as (Hb & Hcb & -> & Hmax).
        split; [lia|]. split; [assumption|]. split; [reflexivity|].
        intros d Hd Hcd. destruct (Z.eq_dec d m) as [->|Hne]; [congruence|].
        apply Hmax; [lia|assumption].
      * destruct IH as [-> Hnone]. split; [reflexivity|].
        intros d Hd. destruct (Z.eq_dec d m) as [->|Hne]; [assumption|].
        apply Hnone. lia.
Qed.

(** ** Long division: remainders and digits *)

Lemma remainder_pow (d : Z) (k : nat) : remainder d k = 10 ^ Z.of_nat k mod d.
Proof.
  induction k as [|k IH]; [reflexivity|].
  cbn [remainder]. rewrite IH, Zmult_mod_idemp_r, Nat2Z.inj_succ, Z.pow_succ_r by lia.
  reflexivity.
Qed.

Lemma remainder_bound (d : Z) (k : nat) : 0 < d -> 0 <= remainder d k < d.
Proof. intros H. rewrite remainder_pow. now apply Z.mod_pos_bound. Qed.

Lemma remainder_digit (d : Z) (k : nat) :
  0 < d -> 10 * remainder d k = d * digit d k + remainder d (S k).
Proof. intros H. unfold digit. cbn [remainder]. apply Z.div_mod. lia. Qed.

(** Each digit is a decimal digit. *)
Lemma digit_bound (d : Z) (k : nat) : 0 < d -> 0 <= digit d k <= 9.
Proof.
  intros H. pose proof (remainder_bound d k H) as Hr.
  pose proof (remainder_bound d (S k) H) as Hr'.
  pose proof (remainder_digit d k H) as E. nia.
Qed.

(** The remainder at [a], shifted by [m] places, is the block of the
    next [m] digits times [d] plus the remainder at [a + m]. *)
Lemma remainder_block (d : Z) (a m : nat) :
  0 < d ->
  10 ^ Z.of_nat m * remainder d a = d * block d a m + remainder d (a + m).
Proof.
  intros H. induction m as [|m IH].
  - cbn [block]. rewrite Nat.add_0_r, Z.pow_0_r. lia.
  - rewrite Nat2Z.inj_succ, Z.pow_succ_r by lia. cbn [block].
    pose proof (remainder_digit d (a + m) H) as E.
    rewrite Nat.add_succ_r. lia.
Qed.

Lemma block_ext (d : Z) (a b m : nat) :
  (forall j : nat, digit d (a + j) = digit d (b + j)) ->
  block d a m = block d b m.
Proof.
  intros H. induction m as [|m IH]; [reflexivity|].
  cbn [block]. now rewrite IH, H.
Qed.

Lemma block_zero (d : Z) (a m : nat) :
  (forall j : nat, digit d (a + j) = 0) -> block d a m = 0.
Proof.
  intros H. induction m as [|m IH]; [reflexivity|].
  cbn [block]. rewrite IH, H. reflexivity.
Qed.

Lemma pow10_gt (d : Z) : 0 < d -> d < 10 ^ Z.of_nat (Z.to_nat d).
Proof. intros H. rewrite Z2Nat.id by lia. apply Z.pow_gt_lin_r; lia. Qed.

(** Two tails of the expansion with the same digits start from the same
    remainder. *)
Lemma digits_remainder (d : Z) (a b : nat) :
  0 < d ->
  (forall j : nat, digit d (a + j) = digit d (b + j)) ->
  remainder d a = remainder d b.
Proof.
  intros H Hdig. set (m := Z.to_nat d).
  pose proof (remainder_block d a m H) as Ea.
  pose proof (remainder_block d b m H) as Eb.
  rewrite (block_ext d a b m Hdig) in Ea.
  pose proof (remainder_bound d (a + m) H).
  pose proof (remainder_bound d (b + m) H).
  pose proof (pow10_gt d H). fold m in H2. nia.
Qed.

Lemma zero_digits_remainder (d : Z) (a : nat) :
  0 < d -> (forall j : nat, digit d (a + j) = 0) -> remainder d a = 0.
Proof.
  intros H Hdig. set (m := Z.to_nat d).
  pose proof (remainder_block d a m H) as Ea.
  rewrite (block_zero d a m Hdig) in Ea.
  pose proof (remainder_bound d a H).
  pose proof (remainder_bound d (a + m) H).
  pose proof (pow10_gt d H). fold m in H2. nia.
Qed.

Lemma remainder_shift (d : Z) (a b j : nat) :
  remainder d a = remainder d b -> remainder d (a + j) = remainder d (b + j).
Proof.
  intros H. induction j as [|j IH]; [now rewrite !Nat.add_0_r|].
  rewrite !Nat.add_succ_r. cbn [remainder]. now rewrite IH.
Qed.

(** The expansion terminates exactly when the division comes out even. *)
Lemma terminating_iff (d : Z) :
  0 < d -> terminating d <-> exists k : nat, remainder d k = 0.
Proof.
  intros H. split.
  - intros [s Hs]. exists s. apply zero_digits_remainder; [assumption|].
    intros j. apply Hs. lia.
  - intros [s Hs]. exists s. intros k Hk.
    assert (E : remainder d k = 0).
    { replace k with (s + (k - s))%nat by lia.
      induction (k - s)%nat as [|j IH]; [now rewrite Nat.add_0_r|].
      rewrite Nat.add_succ_r. cbn [remainder]. rewrite IH.
      apply Z.mod_0_l. lia. }
    unfold digit. rewrite E. apply Z.div_0_l. lia.
Qed.

(** The digits repeat in blocks of [w] exactly when the remainders
    come back after [w] steps. *)
Lemma repeats_iff (d : Z) (w : nat) :
  0 < d ->
  repeats d w <-> exists s : nat, remainder d (s + w) = remainder d s.
Proof.
  intros H. split.
  - intros [s Hs]. exists s. apply digits_remainder; [assumption|].
    intros j. replace (s + w + j)%nat with (s + j + w)%nat by lia.
    apply Hs. lia.
  - intros [s Hs]. exists s. intros k Hk. unfold digit. f_equal. f_equal.
    replace (k + w)%nat with (s + w + (k - s))%nat by lia.
    replace k with (s + (k - s))%nat at 2 by lia.
    now apply remainder_shift.
Qed.

(** ** The reduced denominator *)

Lemma reduced_spec (d : Z) :
  1 <= d ->
  1 <= reduced d <= d /\ Z.gcd (reduced d) 10 = 1 /\
  exists (t : Z) (s : nat), d = reduced d * t /\ (t | 10 ^ Z.of_nat s).
Proof.
  intros Hd. unfold reduced.
  destruct (strip_loop_spec 2 (Z.to_nat d) d 0 ltac:(lia) ltac:(lia))
    as (d1 & c2 & E2 & Hb1 & Hc2 & Hp2 & Hm2).
  rewrite E2.
  destruct (strip_loop_spec 5 (Z.to_nat d) d1 0 ltac:(lia) ltac:(lia))
    as (r & c5 & E5 & Hb & Hc5 & Hp5 & Hm5).
  rewrite E5. rewrite Z.sub_0_r in Hp2, Hp5.
  split; [lia|]. split.
  - apply coprime10_gcd, coprime10_true. split; [|assumption].
    intros E. apply Hm2. apply Z.mod_divide in E; [|lia].
    apply Z.mod0_divide. rewrite Hp5. now apply Z.divide_mul_l.
  - exists (5 ^ c5 * 2 ^ c2), (Z.to_nat (c2 + c5)). split.
    + rewrite Hp2, Hp5. ring.
    + rewrite Z2Nat.id by lia. change 10 with (5 * 2).
      rewrite Z.pow_mul_l, !Z.pow_add_r by lia.
      exists (5 ^ c2 * 2 ^ c5). ring.
Qed.

Lemma reduced_coprime (d : Z) : 2 <= d -> coprime10 d = true -> reduced d = d.
Proof.
  intros Hd Hc. apply coprime10_true in Hc. destruct Hc as [N2 N5].
  unfold reduced. destruct (Z.to_nat d) as [|f] eqn:E; [lia|].
  now rewrite !strip_loop_indivisible by assumption.
Qed.

(** ** The cycle of [1/d] is the order of 10 modulo the reduced
    denominator *)

Section Cycle.

Variable d : Z.

Hypothesis d_ge_2 : 2 <= d.

Lemma terminating_reduced : terminating d <-> reduced d = 1.
Proof.
  destruct (reduced_spec d ltac:(lia)) as (Hb & Hg & t & s & Hd & Ht).
  set (r := reduced d) in *.
  rewrite terminating_iff by lia. split.
  - intros [k Hk]. rewrite remainder_pow in Hk.
    apply Z.mod_divide in Hk; [|lia].
    assert (D : (r | 10 ^ Z.of_nat k * 1)).
    { rewrite Z.mul_1_r. apply Z.divide_trans with d; [|assumption].
      exists t. lia. }
    apply pow10_cancel in D; [|assumption].
    apply Z.divide_1_r_nonneg in D; lia.
  - intros E. exists s. rewrite remainder_pow. apply Z.mod0_divide.
    rewrite Hd, E, Z.mul_1_l. assumption.
Qed.

Lemma repeats_reduced (w : nat) :
  reduced d <> 1 -> repeats d w <-> 10 ^ Z.of_nat w mod reduced d = 1.
Proof.
  intros Hr.
  destruct (reduced_spec d ltac:(lia)) as (Hb & Hg & t & s & Hd & Ht).
  set (r := reduced d) in *.
  rewrite repeats_iff, mod_1_iff by lia.
  assert (F : forall k : nat,
             10 ^ Z.of_nat (k + w) - 10 ^ Z.of_nat k
             = 10 ^ Z.of_nat k * (10 ^ Z.of_nat w - 1)).
  { intros k. rewrite Nat2Z.inj_add, Z.pow_add_r by lia. ring. }
  split.
  - intros [k Hk]. rewrite !remainder_pow in Hk.
    symmetry in Hk. apply mod_eq_divide in Hk; [|lia]. rewrite F in Hk.
    apply pow10_cancel with (k := k); [assumption|].
    apply Z.divide_trans with d; [|assumption]. exists t. lia.
  - intros D. exists s. rewrite !remainder_pow. symmetry.
    apply divide_mod_eq. rewrite F, Hd.
    destruct Ht as [a Ha], D as [b Eb]. exists (a * b).
    rewrite Ha, Eb. ring.
Qed.

(** The recurring cycle of [1/d] has the length [cycle_of d]. *)
Lemma cycle_length_cycle_of : cycle_length d (Z.to_nat (cycle_of d)).
Proof.
  unfold cycle_length, cycle_of.
  destruct (reduced_spec d ltac:(lia)) as (Hb & Hg & _).
  set (r := reduced d) in *.
  destruct (Z.eqb_spec r 1) as [E|E].
  - left. split; [now apply terminating_reduced|reflexivity].
  - right.
    destruct (order_is_order r ltac:(lia) Hg) as ((H0 & H1 & Hmin) & Ho).
    split; [now rewrite terminating_reduced|]. split; [lia|]. split.
    + apply repeats_reduced; [assumption|]. now rewrite Z2Nat.id by lia.
    + intros w' Hw' Hrep. apply repeats_reduced in Hrep; [|assumption].
      apply (Hmin (Z.of_nat w')); [lia|assumption].
Qed.

Lemma cycle_length_unique (w w' : nat) :
  cycle_length d w -> cycle_length d w' -> w = w'.
Proof.
  intros [[T ->]|(T & H0 & Hr & Hm)] [[T' ->]|(T' & H0' & Hr' & Hm')];
    try reflexivity; try contradiction.
  destruct (Nat.lt_trichotomy w w') as [L|[L|L]]; [|assumption|].
  - exfalso. apply (Hm' w); [lia|assumption].
  - exfalso. apply (Hm w'); [lia|assumption].
Qed.

Lemma cycle_length_iff (w : nat) :
  cycle_length d w <-> Z.of_nat w = cycle_of d.
Proof.
  assert (Hn : 0 <= cycle_of d).
  { unfold cycle_of.
    destruct (reduced_spec d ltac:(lia)) as (Hb & Hg & _).
    destruct (Z.eqb_spec (reduced d) 1); [lia|].
    destruct (order_is_order (reduced d) ltac:(lia) Hg). lia. }
  split.
  - intros H. rewrite (cycle_length_unique _ _ H cycle_length_cycle_of). lia.
  - intros H. replace w with (Z.to_nat (cycle_of d)) by lia.
    apply cycle_length_cycle_of.
Qed.

End Cycle.

(** [1/7 = 0.(142857)], [1/6 = 0.1(6)] and [1/8 = 0.125], as in the
    header of [main.py]. *)
Example cycle_length_7 : cycle_length 7 6.
Proof. apply cycle_length_iff; [lia|reflexivity]. Qed.

Example cycle_length_6 : cycle_length 6 1.
Proof. apply cycle_length_iff; [lia|reflexivity]. Qed.

Example cycle_length_8 : cycle_length 8 0.
Proof. apply cycle_length_iff; [lia|reflexivity]. Qed.

(** ** The search never lowers the best cycle length *)

Lemma step_snd_le (st : acc) (d : Z) : snd st <= snd (step st d).
Proof.
  unfold step. destruct (coprime10 d); cbn [andb]; [|lia].
  destruct (Z.gtb_spec (order d) (snd st)); cbn [snd]; lia.
Qed.

Lemma search_snd_mono (n : Z) (k : nat) :
  2 <= n -> snd (search n) <= snd (search (n + Z.of_nat k)).
Proof.
  intros Hn. induction k as [|k IH]; [rewrite Z.add_0_r; lia|].
  replace (n + Z.of_nat (S k)) with (n + Z.of_nat k + 1) by lia.
  rewrite search_succ by lia.
  pose proof (step_snd_le (search (n + Z.of_nat k)) (n + Z.of_nat k)). lia.
Qed.

Lemma cycle_of_coprime (d : Z) :
  2 <= d -> coprime10 d = true -> cycle_of d = order d.
Proof.
  intros Hd Hc. unfold cycle_of. rewrite reduced_coprime by assumption.
  destruct (Z.eqb_spec d 1); [lia|reflexivity].
Qed.

(** From the bound 4 on, the search has found a denominator. *)
Lemma search_found (n : Z) :
  3 < n ->
  exists b, fst (search n) = Some b /\ snd (search n) = order b /\
            2 <= b < n /\ coprime10 b = true /\ 1 <= order b <= b - 1 /\
            forall d, 2 <= d < n -> coprime10 d = true ->
                      order d <= order b /\ (order d = order b -> b <= d).
Proof.
  intros Hn. pose proof (search_best_below n ltac:(lia)) as H.
  unfold best_below in H. destruct (fst (search n)) as [b|].
  - destruct H as (Hb & Hc & Hs & Hmax). exists b.
    destruct (order_is_order b ltac:(lia) (proj1 (coprime10_gcd b) Hc))
      as [_ Ho].
    split; [reflexivity|]. split; [assumption|]. split; [assumption|].
    split; [assumption|]. split; assumption.
  - destruct H as [_ Hnone]. specialize (Hnone 3 ltac:(lia)). discriminate.
Qed.

(** * The claims of the specification *)

(** C1, amended to bounds above 3.  For every integer [n > 3], [main(n)]
    returns a denominator [d] in [[2, n)] together with the length [w] of
    the recurring cycle of [1/d], such that no denominator in the range
    has a longer cycle and [d] is the smallest one whose cycle is that
    long.  In particular [w] is at least the multiplicative order of 10
    modulo every denominator in the range that is coprime to 10. *)
Theorem main_longest_cycle (n : Z) (fuel : nat) :
  3 < n -> (Z.to_nat n <= fuel)%nat ->
  exists (d : Z) (w : nat),
    main fuel (PyInt n) = Some (Return (Some d) (Z.of_nat w)) /\
    longest_cycle n d w /\
    forall d' o, 2 <= d' < n -> Z.gcd d' 10 = 1 -> is_order d' o ->
                 o <= Z.of_nat w.
Proof.
  intros Hn Hf.
  destruct (search_found n Hn) as (b & Efst & Esnd & Hb & Hc & Ho & Hmax).
  exists b, (Z.to_nat (order b)).
  rewrite main_search, Efst, Esnd, Z2Nat.id by lia.
  split; [reflexivity|]. split.
  - split; [assumption|]. split.
    + apply cycle_length_iff; [lia|].
      rewrite cycle_of_coprime by (assumption || lia). lia.
    + intros d' w' Hd' Hw'. apply cycle_length_iff in Hw'; [|lia].
      unfold cycle_of in Hw'.
      destruct (reduced_spec d' ltac:(lia)) as (Hr & Hg & _).
      destruct (Z.eqb_spec (reduced d') 1) as [E|E]; [lia|].
      apply coprime10_gcd in Hg.
      destruct (Hmax (reduced d') ltac:(lia) Hg) as [Hle Htie]. lia.
  - intros d' o Hd' Hg Hord.
    destruct (order_is_order d' ltac:(lia) Hg) as [Hord' _].
    rewrite (is_order_unique _ _ _ Hord Hord').
    apply coprime10_gcd in Hg. destruct (Hmax d' Hd' Hg). lia.
Qed.

Lemma main_longest_cycle_witness :
  3 < 11 /\ (Z.to_nat 11 <= 11)%nat /\
  exists (d : Z) (w : nat),
    main 11 (PyInt 11) = Some (Return (Some d) (Z.of_nat w)) /\
    longest_cycle 11 d w /\
    forall d' o, 2 <= d' < 11 -> Z.gcd d' 10 = 1 -> is_order d' o ->
                 o <= Z.of_nat w.
Proof.
  split; [lia|]. split; [simpl; lia|].
  apply (main_longest_cycle 11 11); [lia|simpl; lia].
Defined.

(** C1 as stated fails at [n = 3]: [main(3)] returns no denominator. *)
Lemma main_longest_cycle_fails_at_3 :
  2 < 3 /\
  ~ exists (fuel : nat) (d : Z) (w : nat),
      main fuel (PyInt 3) = Some (Return (Some d) (Z.of_nat w)) /\
      longest_cycle 3 d w.
Proof.
  split; [lia|]. intros (fuel & d & w & H & _).
  assert (E : main 3 (PyInt 3) = Some (Return None 0)) by reflexivity.
  pose proof (main_deterministic _ _ _ _ _ H E). discriminate.
Qed.

(** C2, amended to bounds above 3.  For every integer [n > 3], some
    denominator in [[2, n)] has a recurring cycle, and [main(n)] returns a
    denominator with a cycle length of at least 1, not [(None, 0)]. *)
Theorem main_finds_cycle (n : Z) (fuel : nat) :
  3 < n -> (Z.to_nat n <= fuel)%nat ->
  (exists (d : Z) (w : nat), 2 <= d < n /\ (0 < w)%nat /\ cycle_length d w) /\
  exists d c, main fuel (PyInt n) = Some (Return (Some d) c) /\ 1 <= c.
Proof.
  intros Hn Hf. split.
  - exists 3, 1%nat. split; [lia|]. split; [lia|].
    apply cycle_length_iff; [lia|reflexivity].
  - destruct (search_found n Hn) as (b & Efst & Esnd & Hb & Hc & Ho & _).
    exists b, (order b). rewrite main_search, Efst, Esnd by lia.
    split; [reflexivity|lia].
Qed.

Lemma main_finds_cycle_witness :
  3 < 4 /\ (Z.to_nat 4 <= 4)%nat /\
  (exists (d : Z) (w : nat), 2 <= d < 4 /\ (0 < w)%nat /\ cycle_length d w) /\
  exists d c, main 4 (PyInt 4) = Some (Return (Some d) c) /\ 1 <= c.
Proof.
  split; [lia|]. split; [simpl; lia|].
  apply (main_finds_cycle 4 4); [lia|simpl; lia].
Defined.

(** C2 as stated fails at [n = 3]: the only denominator in [[2, 3)] is 2,
    whose expansion 0.5 has no recurring cycle, and [main(3)] returns the
    initial accumulator [(None, 0)]. *)
Lemma main_finds_cycle_fails_at_3 :
  2 < 3 /\
  main 3 (PyInt 3) = Some (Return None 0) /\
  (~ exists (d : Z) (w : nat), 2 <= d < 3 /\ (0 < w)%nat /\ cycle_length d w) /\
  ~ exists fuel d c, main fuel (PyInt 3) = Some (Return (Some d) c).
Proof.
  split; [lia|]. split; [reflexivity|]. split.
  - intros (d & w & Hd & Hw & Hc). assert (d = 2) by lia. subst d.
    apply cycle_length_iff in Hc; [|lia]. change (cycle_of 2) with 0 in Hc. lia.
  - intros (fuel & d & c & H).
    assert (E : main 3 (PyInt 3) = Some (Return None 0)) by reflexivity.
    pose proof (main_deterministic _ _ _ _ _ H E). discriminate.
Qed.

(** C3.  [main(11)] returns [(7, 6)], with any fuel from 11 on. *)
Theorem main_11_result (fuel : nat) :
  main (11 + fuel) (PyInt 11) = Some (Return (Some 7) 6).
Proof. apply main_mono with (fuel := 11%nat); [reflexivity|lia]. Qed.

(** C4.  The assertion fails, and nothing is returned, exactly when the
    argument is not an [int] or is an [int] that is at most 2: it fails on
    every such argument, and on no integer above 2. *)
Theorem main_assertion (fuel : nat) (v : pyval) :
  ((forall z, v = PyInt z -> z <= 2) -> main fuel v = Some AssertionError) /\
  (forall z, v = PyInt z -> 2 < z -> main fuel v <> Some AssertionError).
Proof.
  split.
  - intros H. unfold main. destruct v; try reflexivity. cbn [type_is_int].
    specialize (H z eq_refl). destruct (Z.gtb_spec z 2); [lia|reflexivity].
  - intros z -> Hz. unfold main. cbn [type_is_int].
    destruct (Z.gtb_spec z 2); [|lia].
    destruct (for_loop fuel (range 2 z) (None, 0)) as [[b c]|]; discriminate.
Qed.

Lemma main_assertion_witness :
  main 0 (PyInt 2) = Some AssertionError /\
  main 0 (PyInt 0) = Some AssertionError /\
  main 0 (PyFloat 5 (-1)) = Some AssertionError /\
  main 0 (PyBool true) = Some AssertionError /\
  main 5 (PyInt 5) <> Some AssertionError.
Proof.
  split; [|split; [|split; [|split]]].
  - apply (proj1 (main_assertion 0 (PyInt 2))). intros z E. injection E as <-. lia.
  - apply (proj1 (main_assertion 0 (PyInt 0))). intros z E. injection E as <-. lia.
  - apply (proj1 (main_assertion 0 (PyFloat 5 (-1)))). intros z E. discriminate.
  - apply (proj1 (main_assertion 0 (PyBool true))). intros z E. discriminate.
  - apply (proj2 (main_assertion 5 (PyInt 5)) 5); [reflexivity|lia].
Defined.

(** C5.  For every [d >= 3] coprime to 10, the inner loop, started at
    [p = 10 mod d] and [w = 1], terminates (within [d] evaluations of its
    condition) with [w] the multiplicative order of 10 modulo [d], and
    [1 <= w <= d]. *)
Theorem order_loop_correct (d : Z) (fuel : nat) :
  3 <= d -> Z.gcd d 10 = 1 -> (Z.to_nat d <= fuel)%nat ->
  exists w, order_loop fuel d (10 mod d) 1 = Some w /\
            is_order d w /\ 1 <= w <= d.
Proof.
  intros Hd Hg Hf.
  destruct (order_loop_order d fuel ltac:(lia) Hg Hf) as (w & E & Ho & Hb).
  exists w. split; [assumption|]. split; [assumption|]. destruct Ho. lia.
Qed.

Lemma order_loop_correct_witness :
  3 <= 7 /\ Z.gcd 7 10 = 1 /\ (Z.to_nat 7 <= 7)%nat /\
  exists w, order_loop 7 7 (10 mod 7) 1 = Some w /\
            is_order 7 w /\ 1 <= w <= 7.
Proof.
  split; [lia|]. split; [reflexivity|]. split; [simpl; lia|].
  apply (order_loop_correct 7 7); [lia|reflexivity|simpl; lia].
Defined.

(** C6.  For every integer [n > 2], [main(n)] returns a pair, and when
    its denominator [d] is defined the cycle length is at most [d - 1]. *)
Theorem main_cycle_below_denominator (n : Z) (fuel : nat) :
  2 < n -> (Z.to_nat n <= fuel)%nat ->
  exists b c, main fuel (PyInt n) = Some (Return b c) /\
              forall d, b = Some d -> c <= d - 1.
Proof.
  intros Hn Hf. exists (fst (search n)), (snd (search n)).
  split; [now apply main_search|]. intros d Hd.
  pose proof (search_best_below n ltac:(lia)) as H.
  unfold best_below in H. rewrite Hd in H. destruct H as (Hb & Hc & -> & _).
  apply coprime10_gcd in Hc. destruct (order_is_order d ltac:(lia) Hc). lia.
Qed.

Lemma main_cycle_below_denominator_witness :
  2 < 11 /\ (Z.to_nat 11 <= 11)%nat /\
  exists b c, main 11 (PyInt 11) = Some (Return b c) /\
              forall d, b = Some d -> c <= d - 1.
Proof.
  split; [lia|]. split; [simpl; lia|].
  apply (main_cycle_below_denominator 11 11); [lia|simpl; lia].
Defined.

(** C7.  An iteration on a denominator that is divisible by 2 or by 5
    (so also one whose only prime factors are 2 and 5) leaves the
    accumulator as it was, and a denominator that [main] returns is
    divisible by neither: it is coprime to 10. *)
Theorem main_skips_multiples (fuel : nat) :
  (forall (st : acc) (d_orig : Z),
      2 <= d_orig <= Z.of_nat fuel ->
      d_orig mod 2 = 0 \/ d_orig mod 5 = 0 ->
      body fuel st d_orig = Some st) /\
  (forall (n d c : Z),
      main fuel (PyInt n) = Some (Return (Some d) c) ->
      d mod 2 <> 0 /\ d mod 5 <> 0 /\ Z.gcd d 10 = 1).
Proof.
  split.
  - intros st d_orig Hd Hdiv. rewrite body_step by assumption.
    apply coprime10_false in Hdiv. unfold step. now rewrite Hdiv.
  - intros n d c H.
    assert (Hn : 2 < n).
    { unfold main in H. cbn [type_is_int] in H.
      destruct (Z.gtb_spec n 2); [assumption|discriminate]. }
    apply main_mono with (fuel' := Nat.max fuel (Z.to_nat n)) in H; [|lia].
    rewrite main_search in H by lia. injection H as Hb Hc.
    pose proof (search_best_below n ltac:(lia)) as B.
    unfold best_below in B. rewrite Hb in B. destruct B as (_ & Hcop & _).
    pose proof (proj1 (coprime10_true d) Hcop) as [N2 N5].
    split; [assumption|]. split; [assumption|]. now apply coprime10_gcd.
Qed.

Lemma main_skips_multiples_witness :
  body 40 (Some 7, 6) 8 = Some (Some 7, 6) /\
  body 40 (Some 7, 6) 20 = Some (Some 7, 6) /\
  body 40 (Some 7, 6) 40 = Some (Some 7, 6) /\
  body 40 (None, 0) 6 = Some (None, 0) /\
  body 40 (None, 0) 15 = Some (None, 0) /\
  (7 mod 2 <> 0 /\ 7 mod 5 <> 0 /\ Z.gcd 7 10 = 1).
Proof.
  split; [|split; [|split; [|split; [|split]]]].
  - apply (proj1 (main_skips_multiples 40)); [lia|left; reflexivity].
  - apply (proj1 (main_skips_multiples 40)); [lia|left; reflexivity].
  - apply (proj1 (main_skips_multiples 40)); [lia|left; reflexivity].
  - apply (proj1 (main_skips_multiples 40)); [lia|left; reflexivity].
  - apply (proj1 (main_skips_multiples 40)); [lia|right; reflexivity].
  - apply (proj2 (main_skips_multiples 11) 11 7 6). reflexivity.
Defined.

(** C8.  For every integer [n > 2], [main(n)] terminates: the [for] loop
    makes [n - 2] iterations, and in each of them the order loop, which
    runs only for a [d] coprime to 10, stops within [d <= n] evaluations
    of its condition; fuel [n] is enough for the whole call. *)
Theorem main_terminates (n : Z) :
  2 < n ->
  (exists b c, main (Z.to_nat n) (PyInt n) = Some (Return b c)) /\
  length (range 2 n) = Z.to_nat (n - 2) /\
  forall d, In d (range 2 n) -> Z.gcd d 10 = 1 ->
            d <= n /\
            exists w, order_loop (Z.to_nat d) d (10 mod d) 1 = Some w.
Proof.
  intros Hn. split; [|split].
  - exists (fst (search n)), (snd (search n)). now apply main_search.
  - unfold range. now rewrite length_map, length_seq.
  - intros d Hd Hg. apply in_range in Hd. split; [lia|].
    destruct (order_loop_order d (Z.to_nat d) ltac:(lia) Hg (Nat.le_refl _))
      as (w & E & _).
    now exists w.
Qed.

Lemma main_terminates_witness :
  2 < 11 /\
  (exists b c, main (Z.to_nat 11) (PyInt 11) = Some (Return b c)) /\
  length (range 2 11) = Z.to_nat (11 - 2) /\
  forall d, In d (range 2 11) -> Z.gcd d 10 = 1 ->
            d <= 11 /\
            exists w, order_loop (Z.to_nat d) d (10 mod d) 1 = Some w.
Proof. split; [lia|]. apply (main_terminates 11). lia. Defined.

(** C9.  For integers [2 < n1 < n2], the cycle length that [main(n2)]
    returns is at least the one that [main(n1)] returns. *)
Theorem main_cycle_monotone (n1 n2 : Z) (fuel : nat) :
  2 < n1 < n2 -> (Z.to_nat n2 <= fuel)%nat ->
  exists b1 c1 b2 c2,
    main fuel (PyInt n1) = Some (Return b1 c1) /\
    main fuel (PyInt n2) = Some (Return b2 c2) /\
    c1 <= c2.
Proof.
  intros Hn Hf.
  exists (fst (search n1)), (snd (search n1)),
         (fst (search n2)), (snd (search n2)).
  split; [apply main_search; lia|]. split; [apply main_search; lia|].
  replace n2 with (n1 + Z.of_nat (Z.to_nat (n2 - n1))) by lia.
  apply search_snd_mono. lia.
Qed.

Lemma main_cycle_monotone_witness :
  2 < 5 < 11 /\ (Z.to_nat 11 <= 11)%nat /\
  exists b1 c1 b2 c2,
    main 11 (PyInt 5) = Some (Return b1 c1) /\
    main 11 (PyInt 11) = Some (Return b2 c2) /\
    c1 <= c2.
Proof.
  split; [lia|]. split; [simpl; lia|].
  apply (main_cycle_monotone 5 11 11); [lia|simpl; lia].
Defined.

(** C10.  [main(3)] returns [(None, 0)]: its only candidate, 2, is reduced
    to 1 by the first stripping loop, so the iteration leaves the initial
    accumulator untouched. *)
Theorem main_3_sentinel (fuel : nat) :
  range 2 3 = [2] /\
  strip_loop (3 + fuel) 2 2 0 = Some (1, 1) /\
  body (3 + fuel) (None, 0) 2 = Some (None, 0) /\
  main (3 + fuel) (PyInt 3) = Some (Return None 0).
Proof.
  split; [reflexivity|]. split; [|split].
  - apply strip_loop_mono with (fuel := 3%nat); [reflexivity|lia].
  - apply body_mono with (fuel := 3%nat); [reflexivity|lia].
  - apply main_mono with (fuel := 3%nat); [reflexivity|lia].
Qed.

(** * Further properties of the loops of [main] *)

(** ** Helpers *)

Lemma strip_loop_count_le (q : Z) (fuel : nat) (d c d' c' : Z) :
  strip_loop fuel q d c = Some (d', c') -> c <= c'.
Proof.
  revert d c. induction fuel as [|fuel IH]; intros d c H; [discriminate|].
  simpl in H. destruct (d mod q =? 0).
  - apply IH in H. lia.
  - injection H as _ <-. lia.
Qed.

(** A counter that is still at its start means that the loop body never
    ran, for any starting value. *)
Lemma strip_loop_same_count (q : Z) (fuel : nat) (d c d' : Z) :
  strip_loop fuel q d c = Some (d', c) -> d' = d.
Proof.
  destruct fuel as [|fuel]; [discriminate|].
  simpl. destruct (d mod q =? 0); intros H.
  - apply strip_loop_count_le in H. lia.
  - now injection H as <-.
Qed.

Lemma strip_loop_zero (q : Z) (fuel : nat) (c : Z) :
  strip_loop fuel q 0 c = None.
Proof.
  revert c. induction fuel as [|fuel IH]; intros c; [reflexivity|].
  cbn [strip_loop]. rewrite Zmod_0_l, Zdiv_0_l. cbn [Z.eqb]. apply IH.
Qed.

Lemma strip_loop_nonzero (q : Z) (fuel : nat) (d c : Z) :
  2 <= q -> d <> 0 -> Z.abs d <= Z.of_nat fuel ->
  exists r, strip_loop fuel q d c = Some r.
Proof.
  intros Hq. revert d c.
  induction fuel as [|fuel IH]; intros d c Hd Hf; [lia|].
  simpl. destruct (Z.eqb_spec (d mod q) 0) as [E|E]; [|now eexists].
  assert (Hdq : d = q * (d / q)) by (apply Z_div_exact_full_2; lia).
  apply IH; [nia|].
  assert (Ha : Z.abs d = q * Z.abs (d / q)).
  { rewrite Hdq at 1. rewrite Z.abs_mul. f_equal. lia. }
  assert (0 < Z.abs (d / q)) by (apply Z.abs_pos; nia). nia.
Qed.

Lemma pow_divide_le (a i j : Z) : 0 <= i <= j -> (a ^ i | a ^ j).
Proof.
  intros H. exists (a ^ (j - i)). rewrite <- Z.pow_add_r by lia.
  f_equal. lia.
Qed.

(** ** The stripping loops *)

(** X1.  On a denominator [d_orig >= 1] the two stripping loops stop
    (within [d_orig] evaluations of a condition each) and factor it:
    [d_orig = 2^count_2s * 5^count_5s * d] with [d >= 1] coprime to 10.
    Both counters are 0, the test of line 87, exactly when nothing was
    divided out, that is [d = d_orig]. *)
Theorem strip_loops_factor (fuel : nat) (d_orig : Z) :
  1 <= d_orig <= Z.of_nat fuel ->
  exists d1 count_2s d count_5s,
    strip_loop fuel 2 d_orig 0 = Some (d1, count_2s) /\
    strip_loop fuel 5 d1 0 = Some (d, count_5s) /\
    0 <= count_2s /\ 0 <= count_5s /\
    d_orig = 2 ^ count_2s * 5 ^ count_5s * d /\
    1 <= d /\ Z.gcd d 10 = 1 /\
    ((count_2s = 0 /\ count_5s = 0) <-> d = d_orig).
Proof.
  intros Hd.
  destruct (strip_loop_spec 2 fuel d_orig 0 ltac:(lia) Hd)
    as (d1 & c2 & E2 & Hb1 & Hc2 & Hp2 & Hm2).
  destruct (strip_loop_spec 5 fuel d1 0 ltac:(lia) ltac:(lia))
    as (d & c5 & E5 & Hb & Hc5 & Hp5 & Hm5).
  rewrite Z.sub_0_r in Hp2, Hp5.
  exists d1, c2, d, c5.
  assert (F : d_orig = 2 ^ c2 * 5 ^ c5 * d) by (rewrite Hp2, Hp5; ring).
  repeat (split; [assumption || lia|]). split.
  - apply coprime10_gcd, coprime10_true. split; [|assumption].
    intros E. apply Hm2. apply Z.mod_divide in E; [|lia].
    apply Z.mod0_divide. rewrite Hp5. now apply Z.divide_mul_l.
  - split.
    + intros [-> ->]. rewrite !Z.pow_0_r in F. lia.
    + intros E.
      assert (P2 : 0 < 2 ^ c2) by (apply Z.pow_pos_nonneg; lia).
      assert (P5 : 0 < 5 ^ c5) by (apply Z.pow_pos_nonneg; lia).
      assert (G2 : c2 = 0 \/ 1 < 2 ^ c2).
      { destruct (Z.eq_dec c2 0); [now left|right].
        apply Z.pow_gt_1; lia. }
      assert (G5 : c5 = 0 \/ 1 < 5 ^ c5).
      { destruct (Z.eq_dec c5 0); [now left|right].
        apply Z.pow_gt_1; lia. }
      assert (P : 2 ^ c2 * 5 ^ c5 = 1) by nia.
      destruct G2 as [G2|G2], G5 as [G5|G5]; try (split; assumption); nia.
Qed.

Lemma strip_loops_factor_witness :
  1 <= 40 <= Z.of_nat 40 /\
  exists d1 count_2s d count_5s,
    strip_loop 40 2 40 0 = Some (d1, count_2s) /\
    strip_loop 40 5 d1 0 = Some (d, count_5s) /\
    0 <= count_2s /\ 0 <= count_5s /\
    40 = 2 ^ count_2s * 5 ^ count_5s * d /\
    1 <= d /\ Z.gcd d 10 = 1 /\
    ((count_2s = 0 /\ count_5s = 0) <-> d = 40).
Proof. split; [lia|]. apply (strip_loops_factor 40 40). lia. Defined.

(** X2.  A stripping loop stops on every integer except 0: on 0 the
    condition [d % q == 0] stays true for ever, since [0 // q] is 0
    again.  [main] only runs the loops on denominators from 2 up. *)
Theorem strip_loop_terminates_iff (q d c : Z) :
  2 <= q ->
  (exists fuel r, strip_loop fuel q d c = Some r) <-> d <> 0.
Proof.
  intros Hq. split.
  - intros (fuel & r & H) ->. rewrite strip_loop_zero in H. discriminate.
  - intros Hd. exists (Z.to_nat (Z.abs d)).
    apply strip_loop_nonzero; [assumption|assumption|lia].
Qed.

Lemma strip_loop_terminates_iff_witness :
  2 <= 2 /\
  ((exists fuel r, strip_loop fuel 2 (-12) 0 = Some r) <-> -12 <> 0) /\
  ((exists fuel r, strip_loop fuel 2 0 0 = Some r) <-> 0 <> 0).
Proof.
  split; [lia|]. split.
  - apply (strip_loop_terminates_iff 2 (-12) 0). lia.
  - apply (strip_loop_terminates_iff 2 0 0). lia.
Defined.

(** ** The order loop *)

(** X3.  For [d >= 1], the order loop started as in lines 99-100 stops
    exactly when [d] is at least 2 and coprime to 10.  So the two tests
    of lines 86-87, which keep [d = 1] and the multiples of 2 and 5 out,
    are what makes the loop terminate. *)
Theorem order_loop_terminates_iff (d : Z) :
  1 <= d ->
  (exists fuel w, order_loop fuel d (10 mod d) 1 = Some w) <->
  (2 <= d /\ Z.gcd d 10 = 1).
Proof.
  intros Hd. split.
  - intros (fuel & w & H).
    pose proof (order_loop_search d fuel 1 ltac:(lia)) as S.
    rewrite Z.pow_1_r, H in S. destruct S as (Hw & H1 & _).
    assert (Hd2 : 2 <= d).
    { destruct (Z.eq_dec d 1) as [->|]; [|lia].
      rewrite Z.mod_1_r in H1. discriminate. }
    split; [assumption|].
    apply mod_1_iff in H1; [|assumption].
    pose proof (Z.gcd_divide_l d 10) as Gd.
    pose proof (Z.gcd_divide_r d 10) as Gt.
    pose proof (Z.gcd_nonneg d 10) as Gn.
    set (g := Z.gcd d 10) in *.
    assert (D1 : (g | 10 ^ w - 1)) by now apply Z.divide_trans with d.
    assert (D2 : (g | 10 ^ w)).
    { replace w with (Z.succ (w - 1)) by lia. rewrite Z.pow_succ_r by lia.
      now apply Z.divide_mul_l. }
    assert (D : (g | 1)).
    { replace 1 with (10 ^ w - (10 ^ w - 1)) by ring.
      now apply Z.divide_sub_r. }
    apply Z.divide_1_r_nonneg in D; assumption.
  - intros [Hd2 Hg].
    destruct (order_loop_order d (Z.to_nat d) Hd2 Hg (Nat.le_refl _))
      as (w & E & _).
    now exists (Z.to_nat d), w.
Qed.

Lemma order_loop_terminates_iff_witness :
  1 <= 6 /\
  ((exists fuel w, order_loop fuel 6 (10 mod 6) 1 = Some w) <->
   (2 <= 6 /\ Z.gcd 6 10 = 1)) /\
  ((exists fuel w, order_loop fuel 1 (10 mod 1) 1 = Some w) <->
   (2 <= 1 /\ Z.gcd 1 10 = 1)) /\
  ((exists fuel w, order_loop fuel 7 (10 mod 7) 1 = Some w) <->
   (2 <= 7 /\ Z.gcd 7 10 = 1)).
Proof.
  split; [lia|]. split; [|split].
  - apply (order_loop_terminates_iff 6). lia.
  - apply (order_loop_terminates_iff 1). lia.
  - apply (order_loop_terminates_iff 7). lia.
Defined.

(** ** The accumulator *)

(** X4.  In the pair that [main(n)] returns for [n > 2], [d_best] is
    [None] exactly when [d_cycle] is 0, and that happens for [n = 3]
    only. *)
Theorem main_sentinel_iff (n : Z) (fuel : nat) :
  2 < n -> (Z.to_nat n <= fuel)%nat ->
  exists d_best d_cycle,
    main fuel (PyInt n) = Some (Return d_best d_cycle) /\
    (d_best = None <-> d_cycle = 0) /\
    (d_best = None <-> n = 3).
Proof.
  intros Hn Hf. exists (fst (search n)), (snd (search n)).
  split; [now apply main_search|].
  destruct (Z.eq_dec n 3) as [->|Hne].
  - assert (E : search 3 = (None, 0)) by reflexivity. rewrite E. cbn. tauto.
  - destruct (search_found n ltac:(lia)) as (b & Efst & Esnd & _ & _ & Ho & _).
    rewrite Efst, Esnd. split; split; intros H; try discriminate; lia.
Qed.

Lemma main_sentinel_iff_witness :
  2 < 3 /\ (Z.to_nat 3 <= 3)%nat /\
  exists d_best d_cycle,
    main 3 (PyInt 3) = Some (Return d_best d_cycle) /\
    (d_best = None <-> d_cycle = 0) /\
    (d_best = None <-> 3 = 3).
Proof.
  split; [lia|]. split; [simpl; lia|].
  apply (main_sentinel_iff 3 3); [lia|simpl; lia].
Defined.

(** X5.  The result for the bound [n + 1] is the result for [n] after one
    more iteration of the loop, on [d_orig = n]; when [n] is divisible by
    2 or by 5 the two results are the same. *)
Theorem main_succ (n : Z) (fuel : nat) :
  2 < n -> (Z.to_nat (n + 1) <= fuel)%nat ->
  exists b c b' c',
    main fuel (PyInt n) = Some (Return b c) /\
    body fuel (b, c) n = Some (b', c') /\
    main fuel (PyInt (n + 1)) = Some (Return b' c') /\
    (n mod 2 = 0 \/ n mod 5 = 0 -> b' = b /\ c' = c).
Proof.
  intros Hn Hf.
  exists (fst (search n)), (snd (search n)),
         (fst (search (n + 1))), (snd (search (n + 1))).
  split; [apply main_search; lia|]. split; [|split].
  - rewrite body_step by lia. rewrite search_succ by lia.
    now destruct (search n), (step _ n).
  - apply main_search; lia.
  - intros Hdiv. apply coprime10_false in Hdiv.
    rewrite search_succ by lia. unfold step. rewrite Hdiv. now split.
Qed.

Lemma main_succ_witness :
  2 < 10 /\ (Z.to_nat (10 + 1) <= 11)%nat /\
  exists b c b' c',
    main 11 (PyInt 10) = Some (Return b c) /\
    body 11 (b, c) 10 = Some (b', c') /\
    main 11 (PyInt (10 + 1)) = Some (Return b' c') /\
    (10 mod 2 = 0 \/ 10 mod 5 = 0 -> b' = b /\ c' = c).
Proof.
  split; [lia|]. split; [simpl; lia|].
  apply (main_succ 10 11); [lia|simpl; lia].
Defined.

(** X6.  The loop invariant.  After the denominators [2 .. m-1] the
    accumulator is still [(None, 0)] if all of them are divisible by 2 or
    by 5; otherwise [d_best] is coprime to 10, [d_cycle] is the
    multiplicative order of 10 modulo [d_best], no denominator coprime to
    10 seen so far has a greater order, and none below [d_best] has that
    order. *)
Theorem for_loop_invariant (m : Z) (fuel : nat) :
  2 <= m <= Z.of_nat fuel ->
  exists d_best d_cycle,
    for_loop fuel (range 2 m) (None, 0) = Some (d_best, d_cycle) /\
    match d_best with
    | None =>
        d_cycle = 0 /\
        forall d, 2 <= d < m -> d mod 2 = 0 \/ d mod 5 = 0
    | Some b =>
        2 <= b < m /\ Z.gcd b 10 = 1 /\ is_order b d_cycle /\
        forall d o, 2 <= d < m -> Z.gcd d 10 = 1 -> is_order d o ->
                    o <= d_cycle /\ (o = d_cycle -> b <= d)
    end.
Proof.
  intros Hm. exists (fst (search m)), (snd (search m)). split.
  - rewrite for_loop_fold.
    + unfold search. now destruct (fold_left step (range 2 m) (None, 0)).
    + apply Forall_forall. intros d Hd. apply in_range in Hd. lia.
  - pose proof (search_best_below m ltac:(lia)) as B. unfold best_below in B.
    destruct (fst (search m)) as [b|].
    + destruct B as (Hb & Hc & -> & Hmax). apply coprime10_gcd in Hc.
      split; [assumption|]. split; [assumption|].
      split; [apply order_is_order; [lia|assumption]|].
      intros d o Hd Hg Ho.
      destruct (order_is_order d ltac:(lia) Hg) as [Ho' _].
      rewrite (is_order_unique _ _ _ Ho Ho').
      apply Hmax; [assumption|now apply coprime10_gcd].
    + destruct B as [-> Hnone]. split; [reflexivity|].
      intros d Hd. apply coprime10_false. now apply Hnone.
Qed.

Lemma for_loop_invariant_witness :
  2 <= 8 <= Z.of_nat 8 /\
  exists d_best d_cycle,
    for_loop 8 (range 2 8) (None, 0) = Some (d_best, d_cycle) /\
    match d_best with
    | None =>
        d_cycle = 0 /\
        forall d, 2 <= d < 8 -> d mod 2 = 0 \/ d mod 5 = 0
    | Some b =>
        2 <= b < 8 /\ Z.gcd b 10 = 1 /\ is_order b d_cycle /\
        forall d o, 2 <= d < 8 -> Z.gcd d 10 = 1 -> is_order d o ->
                    o <= d_cycle /\ (o = d_cycle -> b <= d)
    end.
Proof. split; [lia|]. apply (for_loop_invariant 8 8). lia. Defined.

(** X7.  The update policy of lines 105-107, for any accumulator and any
    [d_orig]: an iteration never lowers [d_cycle]; it changes [d_best]
    only when [d_cycle] grows strictly, so on a tie the earlier
    denominator stays; and when [d_cycle] grows, the new [d_best] is
    [d_orig] itself. *)
Theorem body_update_policy (fuel : nat) (d_best d_best' : option Z)
        (d_cycle d_cycle' d_orig : Z) :
  body fuel (d_best, d_cycle) d_orig = Some (d_best', d_cycle') ->
  d_cycle <= d_cycle' /\
  (d_cycle' = d_cycle -> d_best' = d_best) /\
  (d_cycle < d_cycle' -> d_best' = Some d_orig).
Proof.
  unfold body.
  destruct (strip_loop fuel 2 d_orig 0) as [[d1 c2]|] eqn:E2; [|discriminate].
  cbn [bind].
  destruct (strip_loop fuel 5 d1 0) as [[d c5]|] eqn:E5; [|discriminate].
  cbn [bind].
  assert (Same : Some (d_best, d_cycle) = Some (d_best', d_cycle') ->
                 d_cycle <= d_cycle' /\
                 (d_cycle' = d_cycle -> d_best' = d_best) /\
                 (d_cycle < d_cycle' -> d_best' = Some d_orig)).
  { intros H. injection H as <- <-. repeat split; try lia; reflexivity. }
  destruct (negb (d =? 1)); [|assumption].
  destruct (Z.eqb_spec c2 0) as [-> |]; [|assumption].
  destruct (Z.eqb_spec c5 0) as [-> |]; [|assumption].
  cbn [andb].
  apply strip_loop_same_count in E2, E5. subst d d1.
  destruct (order_loop fuel d_orig (10 mod d_orig) 1) as [w|]; [|discriminate].
  cbn [bind]. destruct (Z.gtb_spec w d_cycle) as [G|G]; [|assumption].
  intros H. injection H as <- <-. repeat split; try lia; reflexivity.
Qed.

Lemma body_update_policy_witness :
  body 9 (Some 3, 1) 9 = Some (Some 3, 1) /\
  1 <= 1 /\ (1 = 1 -> Some 3 = Some 3) /\ (1 < 1 -> Some 3 = Some 9).
Proof.
  split; [reflexivity|].
  apply (body_update_policy 9 (Some 3) (Some 3) 1 1 9). reflexivity.
Defined.

(** ** What the comments of [main] say about the decimal expansion *)

(** X8.  The comment of line 112.  When the stripping loops reduce
    [d_orig] to 1, [d_orig] divides [10^max(count_2s, count_5s)], and the
    decimal expansion of [1/d_orig] has only zeros from that position on:
    there is no cycle. *)
Theorem no_cycle_when_reduced_to_1 (fuel : nat) (d_orig d1 count_2s count_5s : Z) :
  1 <= d_orig <= Z.of_nat fuel ->
  strip_loop fuel 2 d_orig 0 = Some (d1, count_2s) ->
  strip_loop fuel 5 d1 0 = Some (1, count_5s) ->
  (d_orig | 10 ^ Z.max count_2s count_5s) /\
  forall k : nat, Z.max count_2s count_5s <= Z.of_nat k -> digit d_orig k = 0.
Proof.
  intros Hd E2 E5.
  destruct (strip_loop_spec 2 fuel d_orig 0 ltac:(lia) Hd)
    as (d1' & c2 & E2' & Hb1 & Hc2 & Hp2 & _).
  rewrite E2 in E2'. injection E2' as <- <-.
  destruct (strip_loop_spec 5 fuel d1 0 ltac:(lia) ltac:(lia))
    as (d' & c5 & E5' & _ & Hc5 & Hp5 & _).
  rewrite E5 in E5'. injection E5' as <- <-.
  rewrite Z.sub_0_r in Hp2, Hp5.
  set (m := Z.max count_2s count_5s).
  assert (D : (d_orig | 10 ^ m)).
  { rewrite Hp2, Hp5, Z.mul_1_l. change 10 with (5 * 2).
    rewrite Z.pow_mul_l.
    destruct (pow_divide_le 5 count_5s m ltac:(lia)) as [a Ha].
    destruct (pow_divide_le 2 count_2s m ltac:(lia)) as [b Hb].
    exists (a * b). rewrite Ha, Hb. ring. }
  split; [assumption|]. intros k Hk.
  unfold digit. rewrite remainder_pow.
  assert (Dk : (d_orig | 10 ^ Z.of_nat k)).
  { apply Z.divide_trans with (10 ^ m); [assumption|].
    apply pow_divide_le. lia. }
  apply Z.mod0_divide in Dk. rewrite Dk. reflexivity.
Qed.

Lemma no_cycle_when_reduced_to_1_witness :
  1 <= 40 <= Z.of_nat 40 /\
  strip_loop 40 2 40 0 = Some (5, 3) /\
  strip_loop 40 5 5 0 = Some (1, 1) /\
  (40 | 10 ^ Z.max 3 1) /\
  forall k : nat, Z.max 3 1 <= Z.of_nat k -> digit 40 k = 0.
Proof.
  split; [lia|]. split; [reflexivity|]. split; [reflexivity|].
  apply (no_cycle_when_reduced_to_1 40 40 5 3 1); [lia|reflexivity|reflexivity].
Defined.

(** X9.  The comment of line 109.  A denominator [d_orig] that the
    stripping loops reduce to some [d] other than 1 has the same cycle
    length as [d]. *)
Theorem cycle_length_reduced (d_orig : Z) (w : nat) :
  2 <= d_orig -> reduced d_orig <> 1 ->
  cycle_length d_orig w <-> cycle_length (reduced d_orig) w.
Proof.
  intros Hd Hr.
  destruct (reduced_spec d_orig ltac:(lia)) as (Hb & Hg & _).
  assert (Hrr : reduced (reduced d_orig) = reduced d_orig).
  { apply reduced_coprime; [lia|now apply coprime10_gcd]. }
  rewrite !cycle_length_iff by lia. unfold cycle_of. now rewrite Hrr.
Qed.

Lemma cycle_length_reduced_witness :
  2 <= 28 /\ reduced 28 <> 1 /\
  (cycle_length 28 6 <-> cycle_length (reduced 28) 6).
Proof.
  split; [lia|]. split; [discriminate|].
  apply (cycle_length_reduced 28 6); [lia|discriminate].
Defined.

(** X10.  The comments of lines 89-98.  When the order loop returns [w]
    for a [d >= 2], [10^w - 1] is [c * d] where [c] is the number that
    the first [w] digits of [1/d] spell, so [1/d = c / (10^w - 1)], and
    the digits of [1/d] repeat in blocks of [w] from the first digit
    on. *)
Theorem order_loop_gives_cycle (fuel : nat) (d w : Z) :
  2 <= d -> order_loop fuel d (10 mod d) 1 = Some w ->
  1 <= w /\
  block d 0 (Z.to_nat w) * d = 10 ^ w - 1 /\
  forall k : nat, digit d (k + Z.to_nat w) = digit d k.
Proof.
  intros Hd H.
  pose proof (order_loop_search d fuel 1 ltac:(lia)) as S.
  rewrite Z.pow_1_r, H in S. destruct S as (Hw & H1 & _).
  assert (R0 : remainder d 0 = 1) by (apply Z.mod_small; lia).
  assert (Rw : remainder d (Z.to_nat w) = 1).
  { rewrite remainder_pow, Z2Nat.id by lia. assumption. }
  split; [lia|]. split.
  - pose proof (remainder_block d 0 (Z.to_nat w) ltac:(lia)) as B.
    rewrite R0, Nat.add_0_l, Rw, Z2Nat.id in B by lia. lia.
  - intros k. unfold digit. f_equal. f_equal.
    rewrite (Nat.add_comm k).
    replace k with (0 + k)%nat at 2 by lia.
    apply remainder_shift. now rewrite R0.
Qed.

Lemma order_loop_gives_cycle_witness :
  2 <= 7 /\ order_loop 7 7 (10 mod 7) 1 = Some 6 /\
  1 <= 6 /\
  block 7 0 (Z.to_nat 6) * 7 = 10 ^ 6 - 1 /\
  forall k : nat, digit 7 (k + Z.to_nat 6) = digit 7 k.
Proof.
  split; [lia|]. split; [reflexivity|].
  apply (order_loop_gives_cycle 7 7 6); [lia|reflexivity].
Defined.
